(** * AWA Calculator service worker (sw.js): caching policy and update check

    A shallow embedding of the worker's event listeners over a model of the
    host's cache storage, and the properties of the routing and freshness
    policy proved about it.

    Conventions of the embedding:
    - a listener is a function of the event, of the outcome of the one
      network fetch it issues, and of the cache storage it reads;
    - the cache writes of the listeners are never awaited by the source
      ([caches.open(..).then(cache => cache.put(..))] inside a [then]
      callback whose result is dropped), so a listener returns them as
      pending operations, and the worker as a whole is a transition system
      in which pending operations complete later, in any order;
    - a request is identified in a cache by its URL, compared without its
      fragment as the host does (only GET requests reach a cache);
    - [cache.put] and [cache.addAll] refuse a partial response (status
      206), and nothing is stored then. The host's other refusals (a
      response whose [Vary] header is [*], a URL that is neither http nor
      https) and its [Vary] matching are outside the model: responses are
      taken to come without [Vary], over http(s). *)

From Stdlib Require Import ZArith Ascii String.
From stdpp Require Import gmap strings list.

Local Open Scope string_scope.
Local Open Scope list_scope.
Local Open Scope Z_scope.

(** ** Strings: the three tests the worker applies to a URL *)

Module Str.

(** [s.startsWith(p)] *)
Definition startsWith (p s : string) : bool := String.prefix p s.

(** [s.includes(p)]: [p] occurs at some position of [s]. *)
Fixpoint includes (p s : string) : bool :=
  String.prefix p s ||
  match s with
  | EmptyString => false
  | String _ s' => includes p s'
  end.

(** A regular expression [/\.(a1|a2|...)$/] searched in [s], as
    [String.prototype.match] does it: the search tries every start
    position; at a position the literal dot must be read, then one of the
    alternatives, and [$] (no [m] flag) holds at the end of the input only.
    Backtracking over the alternatives makes their order irrelevant to
    whether a match exists. *)
Definition dot_alt_here (alts : list string) (s : string) : bool :=
  match s with
  | String c rest =>
      Ascii.eqb c "."%char && existsb (fun a => String.eqb rest a) alts
  | EmptyString => false
  end.

Fixpoint match_dot_alt_end (alts : list string) (s : string) : bool :=
  dot_alt_here alts s ||
  match s with
  | EmptyString => false
  | String _ s' => match_dot_alt_end alts s'
  end.

(** What the three tests decide, said without reference to how they
    search. *)
Definition has_prefix (p s : string) : Prop :=
  exists rest, s = p +:+ rest.

Definition contains (p s : string) : Prop :=
  exists a b, s = a +:+ p +:+ b.

Definition ends_with_dot_ext (exts : list string) (s : string) : Prop :=
  exists pre e, In e exts /\ s = pre +:+ "." +:+ e.

(** The double quote character, for string constants that contain it. *)
Definition dq : string := String (Ascii.ascii_of_nat 34) EmptyString.

End Str.

(** ** Data model *)

(** What the listeners read of a [Request]. *)
Record Request : Type := mkRequest {
  method : string;
  url : string;
  mode : string
}.

(** What the listeners read of a [Response]; [response.clone()] has the same
    status, headers and body, so a clone is the same record. *)
Record Response : Type := mkResponse {
  status : Z;
  headers : list (string * string);
  body : string
}.

(** Header names are compared without regard to case. *)
Definition ascii_lower (c : ascii) : ascii :=
  let n := nat_of_ascii c in
  if Nat.leb 65 n && Nat.leb n 90 then ascii_of_nat (n + 32) else c.

Fixpoint lower (s : string) : string :=
  match s with
  | EmptyString => EmptyString
  | String c s' => String (ascii_lower c) (lower s')
  end.

Definition has_header (name : string) (hs : list (string * string)) : bool :=
  existsb (fun h => String.eqb (lower (fst h)) (lower name)) hs.

(** [new Response(body, { headers })] for a string [body]: status 200, and
    the content type of a string body unless the headers give one. *)
Definition new_Response (b : string) (hs : list (string * string)) : Response :=
  {| status := 200;
     headers := if has_header "content-type" hs then hs
                else hs ++ [("content-type", "text/plain;charset=UTF-8")];
     body := b |}.

(** [new Response(undefined)]: status 200, no body and no header. *)
Definition new_Response_undefined : Response :=
  {| status := 200; headers := []; body := "" |}.

#[global] Instance Response_eq_dec : EqDecision Response.
Proof. solve_decision. Defined.

(** Outcome of a [fetch(..)] promise. *)
Inductive FetchResult : Type :=
| Resolved (response : Response)
| Rejected (error : string).

(** ** The host's cache storage

    [caches] is a sequence of named caches in creation order (the order of
    [caches.keys()], which is also the order in which [caches.match]
    consults them); a cache maps a request URL to the response last put
    there. *)

Abbreviation Cache := (gmap string Response).
Abbreviation CacheStorage := (list (string * gmap string Response)).

Module Caches.

(** [caches.keys()] *)
Definition keys (cs : CacheStorage) : list string := map fst cs.

(** [caches.has(name)] *)
Definition has (name : string) (cs : CacheStorage) : bool :=
  existsb (String.eqb name) (keys cs).

(** [caches.open(name)]: the cache is created, last, when it is absent. *)
Definition open (name : string) (cs : CacheStorage) : CacheStorage :=
  if has name cs then cs else cs ++ [(name, ∅)].

(** The entries of the cache called [name]; none when there is no such
    cache. *)
Fixpoint entries (name : string) (cs : CacheStorage) : Cache :=
  match cs with
  | [] => ∅
  | (n, m) :: rest => if String.eqb n name then m else entries name rest
  end.

(** The URL a cache compares: the URL without its fragment. *)
Fixpoint without_fragment (u : string) : string :=
  match u with
  | EmptyString => EmptyString
  | String c u' =>
      if Ascii.eqb c "#"%char then EmptyString
      else String c (without_fragment u')
  end.

(** Matching a URL within one cache: an entry matches when its URL and the
    requested one are the same without their fragments. [store] leaves one
    entry at most for a URL, so the match is unique in a cache that was
    filled by [store]; the direct lookup that comes first settles the
    answer for any other map. *)
Definition find (k : string) (m : Cache) : option Response :=
  match m !! k with
  | Some r => Some r
  | None =>
      snd <$> head (map_to_list
                      (filter (fun kv => without_fragment (fst kv)
                                         = without_fragment k) m))
  end.

(** The entries that match the URL are removed and the new one is added,
    under the URL as it is. *)
Definition store (k : string) (r : Response) (m : Cache) : Cache :=
  <[k := r]>
    (filter (fun kv => without_fragment (fst kv) <> without_fragment k) m).

(** [cache.put] refuses a partial response. *)
Definition put_accepts (r : Response) : bool := negb (status r =? 206).

(** What [cache.put(k, r)] leaves in the cache: the entry replaced, or,
    when the response is refused, the cache as it was. *)
Definition write (k : string) (r : Response) (m : Cache) : Cache :=
  if put_accepts r then store k r m else m.

(** [cache.match(key)] on the cache called [name]. *)
Definition match_in (name key : string) (cs : CacheStorage) : option Response :=
  find key (entries name cs).

(** [cache.put(key, response)] on the cache called [name]. *)
Fixpoint put (name key : string) (r : Response) (cs : CacheStorage)
  : CacheStorage :=
  match cs with
  | [] => []
  | (n, m) :: rest =>
      if String.eqb n name then (n, write key r m) :: rest
      else (n, m) :: put name key r rest
  end.

(** [caches.match(key)]: the caches are consulted in creation order and
    the first entry found is the answer. *)
Fixpoint match_any (key : string) (cs : CacheStorage) : option Response :=
  match cs with
  | [] => None
  | (_, m) :: rest =>
      match find key m with
      | Some r => Some r
      | None => match_any key rest
      end
  end.

(** [caches.delete(name)] *)
Definition delete (name : string) (cs : CacheStorage) : CacheStorage :=
  List.filter (fun p => negb (String.eqb (fst p) name)) cs.

(** The first entry for [key] held by a cache created before the cache
    called [name]: what [caches.match] finds before it reaches [name]. *)
Fixpoint held_before (name key : string) (cs : CacheStorage)
  : option Response :=
  match cs with
  | [] => None
  | (n, m) :: rest =>
      if String.eqb n name then None
      else match find key m with
           | Some r => Some r
           | None => held_before name key rest
           end
  end.

End Caches.

(** ** The worker *)

Definition STATIC_CACHE : string := "static-cache-v1".
Definition DYNAMIC_CACHE : string := "dynamic-cache-v1".

Definition STATIC_ASSETS : list string :=
  [ "/"; "/index.html"; "/manifest.json";
    "/icon-192x192.png"; "/icon-512x512.png"; "/logo.png" ].

(** The alternatives of the two regular expressions of the fetch listener. *)
Definition static_asset_alts : list string :=
  [ "css"; "js"; "png"; "jpg"; "jpeg"; "gif"; "ico"; "svg";
    "woff"; "woff2"; "ttf"; "eot" ].

Definition image_alts : list string :=
  [ "png"; "jpg"; "jpeg"; "gif"; "ico"; "svg" ].

(** The fallback image of the static-asset branch. *)
Definition placeholder_svg : string :=
  "<svg xmlns=" +:+ Str.dq +:+ "http://www.w3.org/2000/svg" +:+ Str.dq +:+
  " width=" +:+ Str.dq +:+ "100" +:+ Str.dq +:+
  " height=" +:+ Str.dq +:+ "100" +:+ Str.dq +:+
  " viewBox=" +:+ Str.dq +:+ "0 0 24 24" +:+ Str.dq +:+
  "><path fill=" +:+ Str.dq +:+ "#cccccc" +:+ Str.dq +:+
  " d=" +:+ Str.dq +:+
  "M12 2C6.48 2 2 6.48 2 12s4.48 10 10 10 10-4.48 10-10S17.52 2 12 2zm-2 15l-5-5 1.41-1.41L10 14.17l7.59-7.59L19 8l-9 9z"
  +:+ Str.dq +:+ "/></svg>".

Definition placeholder : Response :=
  new_Response placeholder_svg [("Content-Type", "image/svg+xml")].

(** A cache write a listener starts and does not wait for:
    [caches.open(name).then(cache => { cache.put(key, response) })]. When
    it completes the cache has been opened, and holds the response unless
    [cache.put] refused it. *)
Inductive CacheOp : Type :=
| OpenPut (name key : string) (response : Response).

Definition op_target (op : CacheOp) : string :=
  match op with OpenPut name _ _ => name end.

Definition targets_dynamic (op : CacheOp) : Prop :=
  op_target op = DYNAMIC_CACHE.

Definition run_op (op : CacheOp) (cs : CacheStorage) : CacheStorage :=
  match op with
  | OpenPut name key response =>
      Caches.put name key response (Caches.open name cs)
  end.

Definition run_ops (ops : list CacheOp) (cs : CacheStorage) : CacheStorage :=
  fold_left (fun st op => run_op op st) ops cs.

(** The static cache is the cache created first, and holds [m]. *)
Definition static_first (m : Cache) (cs : CacheStorage) : Prop :=
  exists rest, cs = (STATIC_CACHE, m) :: rest.

(** What the promise handed to [event.respondWith] settles to: a response,
    [undefined] (a [caches.match] that found nothing; the page then sees a
    failed request), or a rejection. *)
Inductive Reply : Type :=
| Respond (response : Response)
| RespondUndefined
| Throw (error : string).

Definition reply_of_match (o : option Response) : Reply :=
  match o with
  | Some r => Respond r
  | None => RespondUndefined
  end.

(** A fetch event either leaves the listener without [respondWith] (the
    browser handles the request itself) or is answered, with the cache
    writes started on the way. *)
Inductive Outcome : Type :=
| PassThrough
| RespondWith (reply : Reply) (ops : list CacheOp).

Inductive Classification : Type := Navigate | StaticAsset | ApiData | Skip.

#[global] Instance Classification_eq_dec : EqDecision Classification.
Proof. solve_decision. Defined.

Section Worker.

(** The origin the worker is served from: the URL strings the source
    writes as paths ('/index.html') are resolved against it. *)
Variable origin : string.

Definition resolve (path : string) : string := origin +:+ path.

(** *** install *)

(** [cache.addAll(urls)]: every URL is fetched; the entries are written
    only when every fetch resolved with a status [addAll] takes, an ok
    status (200..299) other than 206; otherwise the promise rejects and
    nothing is written. *)
Definition response_ok (r : Response) : bool :=
  (200 <=? status r) && (status r <=? 299) && negb (status r =? 206).

Fixpoint addAll_fetch (net : string -> FetchResult) (urls : list string)
  : option (list (string * Response)) :=
  match urls with
  | [] => Some []
  | u :: rest =>
      match net u with
      | Resolved r =>
          if response_ok r then
            match addAll_fetch net rest with
            | Some l => Some ((u, r) :: l)
            | None => None
            end
          else None
      | Rejected _ => None
      end
  end.

Definition addAll (name : string) (net : string -> FetchResult)
    (urls : list string) (cs : CacheStorage) : CacheStorage :=
  match addAll_fetch net urls with
  | Some l => fold_left (fun st p => Caches.put name (fst p) (snd p) st) l cs
  | None => cs
  end.

(** The install listener; a failure of [addAll] is caught and logged. *)
Definition install (net : string -> FetchResult) (cs : CacheStorage)
  : CacheStorage :=
  addAll STATIC_CACHE net (map resolve STATIC_ASSETS)
         (Caches.open STATIC_CACHE cs).

(** *** activate *)

Definition cacheWhitelist : list string := [STATIC_CACHE; DYNAMIC_CACHE].

(** [Array.prototype.includes] on a list of strings. *)
Definition includes_name (l : list string) (name : string) : bool :=
  existsb (String.eqb name) l.

(** [caches.keys()] is read once; every name not in the whitelist is
    deleted. *)
Definition sweep (retain : list string) (cs : CacheStorage) : CacheStorage :=
  fold_left
    (fun st cacheName =>
       if negb (includes_name retain cacheName)
       then Caches.delete cacheName st
       else st)
    (Caches.keys cs) cs.

Definition activate (cs : CacheStorage) : CacheStorage :=
  sweep cacheWhitelist cs.

(** *** fetch *)

Definition is_static_asset (u : string) : bool :=
  Str.match_dot_alt_end static_asset_alts u.

Definition is_image (u : string) : bool :=
  Str.match_dot_alt_end image_alts u.

(** The three [respondWith] branches of the listener. [net] is the outcome
    of the one [fetch(request)] the branch issues; [cs] is the cache
    storage at the time the branch looks into it. *)

(** Navigation: network first, then the caches, then '/index.html'. *)
Definition navigate_branch (request : Request) (net : FetchResult)
    (cs : CacheStorage) : Outcome :=
  match net with
  | Resolved response =>
      RespondWith (Respond response)
                  [OpenPut DYNAMIC_CACHE (url request) response]
  | Rejected _ =>
      match Caches.match_any (url request) cs with
      | Some cachedResponse => RespondWith (Respond cachedResponse) []
      | None =>
          RespondWith
            (reply_of_match (Caches.match_any (resolve "/index.html") cs))
            []
      end
  end.

(** Static assets: the caches first, with a refresh in the background on
    a hit; on a miss the network, then the image fallback. *)
Definition static_asset_branch (request : Request) (net : FetchResult)
    (cs : CacheStorage) : Outcome :=
  match Caches.match_any (url request) cs with
  | Some cachedResponse =>
      RespondWith (Respond cachedResponse)
        match net with
        | Resolved response =>
            [OpenPut DYNAMIC_CACHE (url request) response]
        | Rejected _ => []
        end
  | None =>
      match net with
      | Resolved response =>
          RespondWith (Respond response)
                      [OpenPut DYNAMIC_CACHE (url request) response]
      | Rejected error =>
          if is_image (url request)
          then RespondWith (Respond placeholder) []
          else RespondWith (Throw error) []
      end
  end.

(** Everything else: network first, the caches as backup. *)
Definition api_data_branch (request : Request) (net : FetchResult)
    (cs : CacheStorage) : Outcome :=
  match net with
  | Resolved response =>
      RespondWith (Respond response)
        (if status response =? 200
         then [OpenPut DYNAMIC_CACHE (url request) response]
         else [])
  | Rejected _ =>
      RespondWith (reply_of_match (Caches.match_any (url request) cs)) []
  end.

(** The listener: the tests in the order of the source, each [return]
    before [respondWith] leaving the request to the browser. *)
Definition fetch_listener (request : Request) (net : FetchResult)
    (cs : CacheStorage) : Outcome :=
  if negb (String.eqb (method request) "GET") then PassThrough
  else if Str.startsWith "chrome-extension://" (url request) then PassThrough
  else if Str.includes "analytics" (url request)
          || Str.includes "telemetry" (url request) then PassThrough
  else if String.eqb (mode request) "navigate" then
    navigate_branch request net cs
  else if is_static_asset (url request) then
    static_asset_branch request net cs
  else
    api_data_branch request net cs.

(** The branch the listener takes, read off the same tests. *)
Definition classify (request : Request) : Classification :=
  if negb (String.eqb (method request) "GET") then Skip
  else if Str.startsWith "chrome-extension://" (url request) then Skip
  else if Str.includes "analytics" (url request)
          || Str.includes "telemetry" (url request) then Skip
  else if String.eqb (mode request) "navigate" then Navigate
  else if is_static_asset (url request) then StaticAsset
  else ApiData.

(** Rule 5 as the specification words it, for comparison with
    [classify]: the extension is looked for at the end of the URL path,
    that is, of the URL with its query string and fragment cut off. *)
Fixpoint url_before_query (u : string) : string :=
  match u with
  | EmptyString => EmptyString
  | String c u' =>
      if Ascii.eqb c "?"%char || Ascii.eqb c "#"%char then EmptyString
      else String c (url_before_query u')
  end.

Definition spec_classify (request : Request) : Classification :=
  if negb (String.eqb (method request) "GET") then Skip
  else if Str.startsWith "chrome-extension://" (url request) then Skip
  else if Str.includes "analytics" (url request)
          || Str.includes "telemetry" (url request) then Skip
  else if String.eqb (mode request) "navigate" then Navigate
  else if Str.match_dot_alt_end static_asset_alts
            (url_before_query (url request)) then StaticAsset
  else ApiData.

Definition reply_of (o : Outcome) : option Reply :=
  match o with
  | PassThrough => None
  | RespondWith reply _ => Some reply
  end.

Definition ops_of (o : Outcome) : list CacheOp :=
  match o with
  | PassThrough => []
  | RespondWith _ ops => ops
  end.


(** *** periodicsync: the update check *)

Record Notification : Type := mkNotification {
  title : string;
  notification_body : string;
  icon : string;
  tag : string
}.

Definition update_notification : Notification :=
  {| title := "AWA Calculator Update";
     notification_body := "A new version is available. Refresh to update.";
     icon := "/icon-192x192.png";
     tag := "update-available" |}.

(** What a run of [checkForUpdates] leaves behind: the notifications it
    showed, the errors its [catch] logged, and the cache storage. *)
Record UpdateRun : Type := mkUpdateRun {
  shown : list Notification;
  logged : list string;
  caches_after : CacheStorage
}.

(** [net] is the outcome of [fetch('/index.html', { cache: 'no-store' })]. *)
Definition checkForUpdates (net : FetchResult) (cs : CacheStorage)
  : UpdateRun :=
  let cs1 := Caches.open STATIC_CACHE cs in
  match net with
  | Rejected error => mkUpdateRun [] [error] cs1
  | Resolved response =>
      if status response =? 200 then
        match Caches.match_in STATIC_CACHE (resolve "/index.html") cs1 with
        | None => mkUpdateRun [] [] cs1
        | Some cachedResponse =>
            let cachedText := body cachedResponse in
            let freshText := body response in
            if negb (String.eqb cachedText freshText)
            then mkUpdateRun [update_notification] [] cs1
            else mkUpdateRun [] [] cs1
        end
      else mkUpdateRun [] [] cs1
  end.

(** The function returns nothing; the three ways a run ends are told apart
    by what it did: a notification shown, an error logged by the [catch],
    or neither. *)
Inductive UpdateResult : Type := UpToDate | NewVersionAvailable | CheckFailed.

Definition update_result (run : UpdateRun) : UpdateResult :=
  match shown run, logged run with
  | _ :: _, _ => NewVersionAvailable
  | [], _ :: _ => CheckFailed
  | [], [] => UpToDate
  end.

(** *** message *)

(** [event.data] of a message from the page: its [type], and what
    [JSON.stringify] gives for its [payload]: a text, or [undefined] (for a
    payload that is absent or has no JSON form). *)
Record MessageData : Type := mkMessageData {
  type : string;
  payload_json : option string
}.

(** The listener: whether [self.skipWaiting()] is called, and the cache
    write started. [event.data] may be absent. *)
Definition message_listener (data : option MessageData)
  : bool * list CacheOp :=
  match data with
  | None => (false, [])
  | Some d =>
      (String.eqb (type d) "SKIP_WAITING",
       if String.eqb (type d) "CACHE_DATA"
       then [OpenPut DYNAMIC_CACHE (resolve "/api/calculation-data")
                     match payload_json d with
                     | Some text => new_Response text []
                     | None => new_Response_undefined
                     end]
       else [])
  end.

(** *** The worker as a transition system

    Between events the worker holds the cache storage and the writes
    started and not yet completed. An event either runs a listener on the
    current storage or completes one pending write. *)
Record World : Type := mkWorld {
  storage : CacheStorage;
  pending : list CacheOp
}.

Inductive Event : Type :=
| EvActivate
| EvFetch (request : Request) (net : FetchResult)
| EvMessage (data : option MessageData)
| EvPeriodicSync (sync_tag : string) (net : FetchResult)
| EvComplete (i : nat).

Definition step (w : World) (ev : Event) : World :=
  match ev with
  | EvActivate => mkWorld (activate (storage w)) (pending w)
  | EvFetch request net =>
      mkWorld (storage w)
              (pending w ++ ops_of (fetch_listener request net (storage w)))
  | EvMessage data =>
      mkWorld (storage w) (pending w ++ snd (message_listener data))
  | EvPeriodicSync sync_tag net =>
      if String.eqb sync_tag "update-check"
      then mkWorld (caches_after (checkForUpdates net (storage w))) (pending w)
      else w
  | EvComplete i =>
      match pending w !! i with
      | Some op => mkWorld (run_op op (storage w)) (delete i (pending w))
      | None => w
      end
  end.

Definition run (w : World) (evs : list Event) : World :=
  fold_left step evs w.

End Worker.

(** ** notificationclick *)

(** What the notificationclick listener reads of a window client: its URL,
    and whether it has a [focus] method. *)
Record Client : Type := mkClient {
  client_url : string;
  has_focus : bool
}.

Inductive ClickEffect : Type :=
| CloseNotification
| FocusClient (client : Client)
| OpenWindow (target : string).

(** The [for .. of] loop over the clients: the first client whose URL is
    '/' and that can be focused. *)
Fixpoint first_focusable (clientList : list Client) : option Client :=
  match clientList with
  | [] => None
  | client :: rest =>
      if String.eqb (client_url client) "/" && has_focus client
      then Some client
      else first_focusable rest
  end.

(** The notificationclick listener: what it does, in order. [event_action]
    is [event.action] (empty for a click on the notification itself),
    [clientList] what [clients.matchAll] resolves to, and [can_open] whether
    [clients.openWindow] is there. *)
Definition notificationclick_listener (event_action : string)
    (clientList : list Client) (can_open : bool) : list ClickEffect :=
  CloseNotification ::
  if String.eqb event_action "close" then []
  else
    match first_focusable clientList with
    | Some client => [FocusClient client]
    | None => if can_open then [OpenWindow "/"] else []
    end.

(** ** The string tests, characterised *)

Module StrFacts.
Import Str.

Lemma includes_unfold p s :
  includes p s =
  String.prefix p s ||
  match s with EmptyString => false | String _ s' => includes p s' end.
Proof. destruct s; reflexivity. Qed.

Lemma match_dot_alt_end_unfold alts s :
  match_dot_alt_end alts s =
  dot_alt_here alts s ||
  match s with
  | EmptyString => false
  | String _ s' => match_dot_alt_end alts s'
  end.
Proof. destruct s; reflexivity. Qed.

Lemma append_cons c s t : String c s +:+ t = String c (s +:+ t).
Proof. reflexivity. Qed.

Lemma append_nil t : EmptyString +:+ t = t.
Proof. reflexivity. Qed.

Lemma startsWith_spec p s :
  startsWith p s = true <-> exists rest, s = p +:+ rest.
Proof.
  unfold startsWith. revert s.
  induction p as [|c p IH]; intros s; simpl.
  - split; [intros _; exists s; reflexivity | destruct s; reflexivity].
  - destruct s as [|d s]; simpl.
    + split; [discriminate | intros [rest H]; discriminate].
    + destruct (Ascii.ascii_dec c d) as [->|Hne].
      * rewrite IH. split; intros [rest H]; exists rest;
          rewrite append_cons in *; congruence.
      * split; [discriminate | intros [rest H]; rewrite append_cons in H; congruence].
Qed.

Lemma includes_spec p s :
  includes p s = true <-> exists a b, s = a +:+ p +:+ b.
Proof.
  split.
  - induction s as [|c s IH]; rewrite includes_unfold;
      intros H; apply orb_prop in H as [H|H]; try discriminate.
    + apply startsWith_spec in H as [rest ->]. exists EmptyString, rest. reflexivity.
    + apply startsWith_spec in H as [rest ->]. exists EmptyString, rest. reflexivity.
    + destruct (IH H) as (a & b & ->). exists (String c a), b. reflexivity.
  - intros (a & b & ->). induction a as [|c a IH]; rewrite includes_unfold.
    + apply orb_true_intro. left. apply startsWith_spec. exists b. reflexivity.
    + apply orb_true_intro. right. exact IH.
Qed.

Lemma dot_alt_here_spec alts s :
  dot_alt_here alts s = true <-> exists a, In a alts /\ s = "." +:+ a.
Proof.
  destruct s as [|c rest]; simpl.
  - split; [discriminate | intros (a & _ & H); discriminate].
  - rewrite andb_true_iff, Ascii.eqb_eq, existsb_exists. split.
    + intros [-> (a & Hin & Heq)]. apply String.eqb_eq in Heq as ->.
      exists a. split; [assumption | reflexivity].
    + intros (a & Hin & Heq). rewrite append_cons, append_nil in Heq.
      injection Heq as Hc Hr. subst c rest.
      split; [reflexivity | exists a; split; [assumption | apply String.eqb_refl]].
Qed.

Lemma match_dot_alt_end_spec alts s :
  match_dot_alt_end alts s = true <->
  exists pre a, In a alts /\ s = pre +:+ "." +:+ a.
Proof.
  split.
  - induction s as [|c s IH]; rewrite match_dot_alt_end_unfold;
      intros H; apply orb_prop in H as [H|H]; try discriminate.
    + apply dot_alt_here_spec in H as (a & Hin & ->).
      exists EmptyString, a. split; [assumption | reflexivity].
    + destruct (IH H) as (pre & a & Hin & ->).
      exists (String c pre), a. split; [assumption | reflexivity].
  - intros (pre & a & Hin & ->).
    induction pre as [|c pre IH]; rewrite match_dot_alt_end_unfold.
    + apply orb_true_intro. left. apply dot_alt_here_spec. exists a. auto.
    + apply orb_true_intro. right. exact IH.
Qed.

End StrFacts.

(** ** The cache storage: how the operations act on lookups *)

Module CachesFacts.
Import Caches.

Lemma has_cons name n (m : Cache) rest :
  has name ((n, m) :: rest) = String.eqb n name || has name rest.
Proof. unfold has. simpl. now rewrite String.eqb_sym. Qed.

Lemma open_nil name : open name [] = [(name, ∅)].
Proof. reflexivity. Qed.

Lemma open_cons name n (m : Cache) rest :
  open name ((n, m) :: rest) =
  if String.eqb n name then (n, m) :: rest else (n, m) :: open name rest.
Proof.
  unfold open. rewrite has_cons.
  destruct (String.eqb n name); simpl; [reflexivity|].
  destruct (has name rest); reflexivity.
Qed.

Lemma open_has name cs :
  open name cs = cs \/ (has name cs = false /\ open name cs = cs ++ [(name, ∅)]).
Proof. unfold open. destruct (has name cs); auto. Qed.

(** The URL without fragment has no fragment left. *)
Lemma without_fragment_idem u :
  without_fragment (without_fragment u) = without_fragment u.
Proof.
  induction u as [|c u IH]; simpl; [reflexivity|].
  destruct (Ascii.eqb c "#") eqn:E; simpl; [reflexivity|].
  now rewrite E, IH.
Qed.

(** What was stored for a URL is what is found for it. *)
Lemma find_store k r (m : Cache) : find k (store k r m) = Some r.
Proof. unfold find, store. now rewrite lookup_insert_eq. Qed.

Lemma find_write k r (m : Cache) :
  put_accepts r = true -> find k (write k r m) = Some r.
Proof. unfold write. intros ->. apply find_store. Qed.


Lemma find_empty k : find k (∅ : Cache) = None.
Proof.
  unfold find. rewrite lookup_empty, map_filter_empty.
  now rewrite map_to_list_empty.
Qed.

Lemma run_op_nil name key r :
  run_op (OpenPut name key r) [] = [(name, write key r ∅)].
Proof.
  unfold run_op. rewrite open_nil. cbn [put]. now rewrite String.eqb_refl.
Qed.

Lemma run_op_cons name key r n (m : Cache) rest :
  run_op (OpenPut name key r) ((n, m) :: rest) =
  if String.eqb n name then (n, write key r m) :: rest
  else (n, m) :: run_op (OpenPut name key r) rest.
Proof.
  unfold run_op. rewrite open_cons.
  destruct (String.eqb n name) eqn:E; cbn [put]; now rewrite E.
Qed.

Lemma entries_open name name' cs :
  entries name' (open name cs) = entries name' cs.
Proof.
  induction cs as [|[n m] rest IH].
  - rewrite open_nil. simpl. now destruct (String.eqb name name').
  - rewrite open_cons. destruct (String.eqb n name); [reflexivity|].
    simpl. now rewrite IH.
Qed.

Lemma match_any_open name key cs :
  match_any key (open name cs) = match_any key cs.
Proof.
  induction cs as [|[n m] rest IH].
  - rewrite open_nil. simpl. now rewrite find_empty.
  - rewrite open_cons. destruct (String.eqb n name); [reflexivity|].
    simpl. now rewrite IH.
Qed.

Lemma keys_open_incl name name' cs :
  In name' (keys cs) -> In name' (keys (open name cs)).
Proof.
  unfold open. destruct (has name cs); [auto|].
  unfold keys. rewrite map_app, in_app_iff. auto.
Qed.

(** A completed write changes its own cache, by [write], and touches no
    other cache. *)
Lemma entries_run_op name key r name' cs :
  entries name' (run_op (OpenPut name key r) cs) =
  if String.eqb name name' then write key r (entries name cs)
  else entries name' cs.
Proof.
  induction cs as [|[n m] rest IH].
  - rewrite run_op_nil. simpl. now destruct (String.eqb name name').
  - rewrite run_op_cons. destruct (String.eqb n name) eqn:E; cbn [entries].
    + rewrite E. apply String.eqb_eq in E as ->.
      now destruct (String.eqb name name').
    + rewrite E, IH.
      destruct (String.eqb n name') eqn:E'; [|reflexivity].
      apply String.eqb_eq in E' as ->. rewrite String.eqb_sym in E.
      now rewrite E.
Qed.

Lemma keys_run_op_incl op name' cs :
  In name' (keys cs) -> In name' (keys (run_op op cs)).
Proof.
  destruct op as [name key r].
  induction cs as [|[n m] rest IH]; [intros []|].
  rewrite run_op_cons. destruct (String.eqb n name); simpl; tauto.
Qed.


(** A refused write leaves every lookup as it was. *)
Lemma match_any_run_op_refused name key r key' cs :
  put_accepts r = false ->
  match_any key' (run_op (OpenPut name key r) cs) = match_any key' cs.
Proof.
  intros Hr. induction cs as [|[n m] rest IH].
  - rewrite run_op_nil. unfold write. rewrite Hr. simpl.
    now rewrite find_empty.
  - rewrite run_op_cons. unfold write. rewrite Hr.
    destruct (String.eqb n name); [reflexivity|].
    cbn [match_any]. now rewrite IH.
Qed.


(** [caches.delete] leaves the entries of the other caches alone. *)
Lemma entries_filter (keep : string -> bool) name cs :
  keep name = true ->
  entries name (List.filter (fun p => keep (fst p)) cs) = entries name cs.
Proof.
  intros Hk. induction cs as [|[n m] rest IH]; simpl; [reflexivity|].
  destruct (keep n) eqn:E; simpl.
  - now rewrite IH.
  - destruct (String.eqb n name) eqn:E'; [|exact IH].
    apply String.eqb_eq in E' as ->. congruence.
Qed.

End CachesFacts.

(** ** The activation sweep *)

Section Sweep.
Import Caches CachesFacts.

Lemma filter_twice {A} (P Q : A -> bool) (l : list A) :
  List.filter Q (List.filter P l) = List.filter (fun x => P x && Q x) l.
Proof.
  induction l as [|x l IH]; simpl; [reflexivity|].
  destruct (P x); simpl; [destruct (Q x)|]; now rewrite IH.
Qed.

(** Deleting the names of [l] that are not retained, one after the other,
    filters the storage once. *)
Lemma sweep_fold (retain l : list string) (cs : CacheStorage) :
  fold_left
    (fun st cacheName =>
       if negb (includes_name retain cacheName)
       then delete cacheName st else st) l cs
  = List.filter
      (fun p => negb (existsb (fun n => String.eqb (fst p) n
                                        && negb (includes_name retain n)) l))
      cs.
Proof.
  revert cs. induction l as [|n l IH]; intros cs; simpl.
  - induction cs as [|p cs IHcs]; simpl; congruence.
  - rewrite IH. destruct (includes_name retain n); simpl.
    + apply filter_ext. intros p. now rewrite andb_false_r.
    + unfold delete. rewrite filter_twice. apply filter_ext. intros p.
      now rewrite andb_true_r, negb_orb.
Qed.

Lemma sweep_filter (retain : list string) (cs : CacheStorage) :
  sweep retain cs = List.filter (fun p => includes_name retain (fst p)) cs.
Proof.
  unfold sweep. rewrite sweep_fold. apply filter_ext_in. intros p Hp.
  destruct (includes_name retain (fst p)) eqn:E.
  - apply negb_true_iff, not_true_is_false. intros H.
    apply existsb_exists in H as (n & _ & H).
    apply andb_prop in H as [H1 H2]. apply String.eqb_eq in H1 as <-.
    rewrite E in H2. discriminate.
  - apply negb_false_iff, existsb_exists. exists (fst p). split.
    + unfold keys. now apply in_map.
    + now rewrite String.eqb_refl, E.
Qed.

Lemma keys_filter (keep : string -> bool) (cs : CacheStorage) :
  keys (List.filter (fun p => keep (fst p)) cs) = List.filter keep (keys cs).
Proof.
  induction cs as [|[n m] cs IH]; simpl; [reflexivity|].
  destruct (keep n); simpl; now rewrite IH.
Qed.

Lemma includes_name_In (l : list string) name :
  includes_name l name = true <-> In name l.
Proof.
  unfold includes_name. rewrite existsb_exists. split.
  - intros (x & Hx & E). now apply String.eqb_eq in E as ->.
  - intros H. exists name. split; [assumption | apply String.eqb_refl].
Qed.

End Sweep.

(** C7. After the activation sweep the caches that exist are exactly those
    that existed before and are named in the retain list (static-cache-v1,
    dynamic-cache-v1), in their order of creation; the retained caches keep
    their entries; from static-cache-v1, dynamic-cache-v1, old-cache-v0 the
    first two remain, whatever they hold. *)
Theorem activate_keeps_exactly_the_whitelist (cs : CacheStorage) :
  Caches.keys (activate cs)
    = List.filter (includes_name [STATIC_CACHE; DYNAMIC_CACHE]) (Caches.keys cs)
  /\ (forall name,
        In name (Caches.keys (activate cs)) <->
        In name (Caches.keys cs) /\ In name [STATIC_CACHE; DYNAMIC_CACHE])
  /\ (forall name,
        In name [STATIC_CACHE; DYNAMIC_CACHE] ->
        Caches.entries name (activate cs) = Caches.entries name cs)
  /\ (forall s d old : Cache,
        activate [(STATIC_CACHE, s); (DYNAMIC_CACHE, d); ("old-cache-v0", old)]
        = [(STATIC_CACHE, s); (DYNAMIC_CACHE, d)]).
Proof.
  unfold activate, cacheWhitelist. rewrite sweep_filter.
  split; [apply keys_filter|]. split; [|split].
  - intros name. rewrite keys_filter, filter_In, includes_name_In. tauto.
  - intros name Hin. apply CachesFacts.entries_filter.
    now apply includes_name_In.
  - intros s d old. reflexivity.
Qed.

(** ** The request classifier *)

Section Classifier.
Import Str StrFacts.

(** The listener runs the branch [classify] names. *)
Lemma fetch_listener_dispatch origin request net cs :
  fetch_listener origin request net cs =
  match classify request with
  | Skip => PassThrough
  | Navigate => navigate_branch origin request net cs
  | StaticAsset => static_asset_branch request net cs
  | ApiData => api_data_branch request net cs
  end.
Proof.
  unfold fetch_listener, classify.
  destruct (negb (String.eqb (method request) "GET")); [reflexivity|].
  destruct (startsWith "chrome-extension://" (url request)); [reflexivity|].
  destruct (includes "analytics" (url request)
            || includes "telemetry" (url request)); [reflexivity|].
  destruct (String.eqb (mode request) "navigate"); [reflexivity|].
  destruct (is_static_asset (url request)); reflexivity.
Qed.

Lemma is_static_asset_spec u :
  is_static_asset u = true <-> ends_with_dot_ext static_asset_alts u.
Proof. apply match_dot_alt_end_spec. Qed.

Lemma is_image_spec u :
  is_image u = true <-> ends_with_dot_ext image_alts u.
Proof. apply match_dot_alt_end_spec. Qed.

Lemma includes_false p s : includes p s = false <-> ~ contains p s.
Proof.
  rewrite <- not_true_iff_false. unfold contains.
  now rewrite includes_spec.
Qed.

End Classifier.

(** C2, as the code has it. The classification depends on the method, the
    URL and the mode of the request only, and follows six rules in priority
    order: a method other than GET gives Skip; a URL that starts with
    chrome-extension:// gives Skip; a URL that contains analytics or
    telemetry gives Skip; mode navigate gives Navigate; otherwise a URL
    string that ends with a dot and one of css, js, png, jpg, jpeg, gif, ico,
    svg, woff, woff2, ttf, eot gives StaticAsset (the test reads the end of
    the whole URL, query string included, not the end of its path); every
    remaining request gives ApiData. The fetch listener runs the branch so
    named. *)
Theorem classify_rules (request : Request) :
  (method request <> "GET" -> classify request = Skip)
  /\ (method request = "GET" ->
      (Str.has_prefix "chrome-extension://" (url request) ->
       classify request = Skip)
      /\ (~ Str.has_prefix "chrome-extension://" (url request) ->
          (Str.contains "analytics" (url request)
           \/ Str.contains "telemetry" (url request) ->
           classify request = Skip)
          /\ (~ Str.contains "analytics" (url request) ->
              ~ Str.contains "telemetry" (url request) ->
              (mode request = "navigate" -> classify request = Navigate)
              /\ (mode request <> "navigate" ->
                  (Str.ends_with_dot_ext static_asset_alts (url request) ->
                   classify request = StaticAsset)
                  /\ (~ Str.ends_with_dot_ext static_asset_alts (url request) ->
                      classify request = ApiData)))))
  /\ (forall request',
        method request' = method request ->
        url request' = url request ->
        mode request' = mode request ->
        classify request' = classify request)
  /\ (forall origin net cs,
        fetch_listener origin request net cs =
        match classify request with
        | Skip => PassThrough
        | Navigate => navigate_branch origin request net cs
        | StaticAsset => static_asset_branch request net cs
        | ApiData => api_data_branch request net cs
        end).
Proof.
  split; [|split; [|split]].
  - intros H. unfold classify.
    apply String.eqb_neq in H. now rewrite H.
  - intros Hm. unfold classify. rewrite Hm. simpl.
    split.
    + intros Hp. apply StrFacts.startsWith_spec in Hp. now rewrite Hp.
    + intros Hp. unfold Str.has_prefix in Hp.
      rewrite <- StrFacts.startsWith_spec in Hp.
      apply not_true_is_false in Hp. rewrite Hp.
      split.
      * intros [H|H]; apply StrFacts.includes_spec in H; rewrite H;
          [reflexivity | now rewrite orb_true_r].
      * intros Ha Ht. apply includes_false in Ha, Ht. rewrite Ha, Ht. simpl.
        split.
        -- intros ->. reflexivity.
        -- intros Hn. apply String.eqb_neq in Hn. rewrite Hn.
           split.
           ++ intros He. apply is_static_asset_spec in He. now rewrite He.
           ++ intros He. rewrite <- is_static_asset_spec in He.
              apply not_true_is_false in He. now rewrite He.
  - intros [m' u' md'] Hm Hu Hmd. simpl in *. subst. now destruct request.
  - intros origin net cs. apply fetch_listener_dispatch.
Qed.

(** A stylesheet fetched by the page is a static asset by the last rules. *)
Lemma classify_rules_witness :
  classify (mkRequest "GET" "https://awa.example/css/app.css" "no-cors")
  = StaticAsset.
Proof.
  pose proof (classify_rules
                (mkRequest "GET" "https://awa.example/css/app.css" "no-cors"))
    as (_ & H & _).
  destruct (H eq_refl) as (_ & H1).
  assert (Hext : Str.ends_with_dot_ext static_asset_alts
                   "https://awa.example/css/app.css")
    by (apply is_static_asset_spec; reflexivity).
  assert (Hpre : ~ Str.has_prefix "chrome-extension://"
                     "https://awa.example/css/app.css")
    by (unfold Str.has_prefix; rewrite <- StrFacts.startsWith_spec; discriminate).
  assert (Ha : ~ Str.contains "analytics" "https://awa.example/css/app.css")
    by (apply includes_false; reflexivity).
  assert (Ht : ~ Str.contains "telemetry" "https://awa.example/css/app.css")
    by (apply includes_false; reflexivity).
  destruct (H1 Hpre) as (_ & H2).
  destruct (H2 Ha Ht) as (_ & H3).
  assert (Hmode : "no-cors" <> "navigate") by discriminate.
  destruct (H3 Hmode) as (H4 & _).
  exact (H4 Hext).
Defined.

(** C2, as stated, fails: the script URL https://awa.example/app.js?v=2 has
    a path that ends with .js, followed by a query string; by the stated
    rule 5 it is a StaticAsset, the listener's test (anchored at the end of
    the whole URL) does not match and the request is ApiData. *)
Lemma classify_query_string_is_not_static :
  let request := mkRequest "GET" "https://awa.example/app.js?v=2" "no-cors" in
  url_before_query (url request) = "https://awa.example/app.js"
  /\ spec_classify request = StaticAsset
  /\ classify request = ApiData
  /\ (forall origin response cs,
        fetch_listener origin request (Resolved response) cs
        = api_data_branch request (Resolved response) cs).
Proof.
  repeat split. 
Qed.

(** ** The three strategies *)

Section Strategies.
Import Caches CachesFacts.

Variable origin : string.


Lemma match_in_run_op name key r cs :
  put_accepts r = true ->
  match_in name key (run_op (OpenPut name key r) cs) = Some r.
Proof.
  intros Hr. unfold match_in. rewrite entries_run_op, String.eqb_refl.
  now apply find_write.
Qed.



Lemma fetch_listener_static request net cs :
  classify request = StaticAsset ->
  fetch_listener origin request net cs = static_asset_branch request net cs.
Proof. intros H. now rewrite fetch_listener_dispatch, H. Qed.

Lemma fetch_listener_navigate request net cs :
  classify request = Navigate ->
  fetch_listener origin request net cs
  = navigate_branch origin request net cs.
Proof. intros H. now rewrite fetch_listener_dispatch, H. Qed.


(** Every write a fetch starts goes to the dynamic cache, under the URL of
    the request. *)
Lemma fetch_listener_ops request net cs op :
  In op (ops_of (fetch_listener origin request net cs)) ->
  exists response, op = OpenPut DYNAMIC_CACHE (url request) response.
Proof.
  rewrite fetch_listener_dispatch.
  destruct (classify request); simpl.
  - unfold navigate_branch. destruct net as [response|e]; simpl.
    + intros [<-|[]]. now exists response.
    + destruct (match_any (url request) cs); intros [].
  - unfold static_asset_branch.
    destruct (match_any (url request) cs), net as [response|e]; simpl;
      try (intros [<-|[]]; now exists response); try (intros []).
    destruct (is_image (url request)); intros [].
  - unfold api_data_branch. destruct net as [response|e]; simpl.
    + destruct (status response =? 200); simpl; [|intros []].
      intros [<-|[]]. now exists response.
    + intros [].
  - intros [].
Qed.

End Strategies.

(** C3. A GET request taken by the static-asset branch whose URL ends with
    an image extension (png, jpg, jpeg, gif, ico, svg), when no cache holds
    it and the network fetch fails, is answered with the placeholder image:
    a fixed SVG document with Content-Type image/svg+xml. For any other
    static asset in that situation the error of the fetch is rethrown. *)
Theorem static_asset_offline_fallback
    (origin : string) (request : Request) (error : string)
    (cs : CacheStorage) :
  classify request = StaticAsset ->
  Caches.match_any (url request) cs = None ->
  method request = "GET"
  /\ (Str.ends_with_dot_ext image_alts (url request) ->
      fetch_listener origin request (Rejected error) cs
      = RespondWith (Respond placeholder) [])
  /\ (~ Str.ends_with_dot_ext image_alts (url request) ->
      fetch_listener origin request (Rejected error) cs
      = RespondWith (Throw error) [])
  /\ status placeholder = 200
  /\ headers placeholder = [("Content-Type", "image/svg+xml")]
  /\ body placeholder = placeholder_svg
  /\ Str.has_prefix "<svg xmlns=" placeholder_svg.
Proof.
  intros Hc Hmiss. split.
  { unfold classify in Hc.
    destruct (String.eqb (method request) "GET") eqn:E; [|discriminate].
    now apply String.eqb_eq. }
  rewrite (fetch_listener_static origin _ _ _ Hc).
  unfold static_asset_branch. rewrite Hmiss.
  split; [|split].
  - intros Hi. apply is_image_spec in Hi. now rewrite Hi.
  - intros Hi. rewrite <- is_image_spec in Hi.
    apply not_true_is_false in Hi. now rewrite Hi.
  - repeat split. apply StrFacts.startsWith_spec. reflexivity.
Qed.

Lemma static_asset_offline_fallback_witness :
  fetch_listener "https://awa.example"
    (mkRequest "GET" "https://awa.example/logo.png" "no-cors")
    (Rejected "offline") []
  = RespondWith (Respond placeholder) []
  /\ fetch_listener "https://awa.example"
       (mkRequest "GET" "https://awa.example/app.css" "no-cors")
       (Rejected "offline") []
     = RespondWith (Throw "offline") [].
Proof.
  split.
  - apply (static_asset_offline_fallback "https://awa.example"
             (mkRequest "GET" "https://awa.example/logo.png" "no-cors")
             "offline" []); [reflexivity | reflexivity |].
    apply is_image_spec. reflexivity.
  - apply (static_asset_offline_fallback "https://awa.example"
             (mkRequest "GET" "https://awa.example/app.css" "no-cors")
             "offline" []); [reflexivity | reflexivity |].
    rewrite <- is_image_spec. discriminate.
Defined.











(** ** The update check *)

(** C5, as the code has it. When static-cache-v1 holds no entry for
    /index.html, a run of checkForUpdates shows no notification and never
    ends as NewVersionAvailable; it ends as UpToDate when the fetch of
    /index.html resolves (whatever the status), and as CheckFailed, with the
    error logged, when that fetch fails. *)
Theorem checkForUpdates_without_snapshot
    (origin : string) (net : FetchResult) (cs : CacheStorage) :
  Caches.match_in STATIC_CACHE (resolve origin "/index.html") cs = None ->
  shown (checkForUpdates origin net cs) = []
  /\ update_result (checkForUpdates origin net cs) <> NewVersionAvailable
  /\ (forall response,
        net = Resolved response ->
        update_result (checkForUpdates origin net cs) = UpToDate)
  /\ (forall error,
        net = Rejected error ->
        logged (checkForUpdates origin net cs) = [error]
        /\ update_result (checkForUpdates origin net cs) = CheckFailed).
Proof.
  intros Hnone. unfold checkForUpdates, Caches.match_in in *.
  rewrite CachesFacts.entries_open, Hnone.
  destruct net as [response|error].
  - destruct (status response =? 200); simpl;
      (split; [reflexivity|]); (split; [discriminate|]);
      (split; [reflexivity | intros error H; discriminate]).
  - simpl. split; [reflexivity|]. split; [discriminate|].
    split; [intros response H; discriminate|].
    intros e H. injection H as <-. split; reflexivity.
Qed.

Lemma checkForUpdates_without_snapshot_witness :
  update_result
    (checkForUpdates "https://awa.example"
       (Resolved (mkResponse 200 [] "<html>v2</html>")) [])
  = UpToDate.
Proof.
  destruct (checkForUpdates_without_snapshot "https://awa.example"
              (Resolved (mkResponse 200 [] "<html>v2</html>")) [] eq_refl)
    as (_ & _ & H & _).
  exact (H _ eq_refl).
Defined.

(** C5, as stated, fails when the fetch of /index.html fails: with no cache
    at all (so no snapshot), the run ends in the catch block, which logs the
    error: CheckFailed, not UpToDate. *)
Lemma checkForUpdates_without_snapshot_can_fail :
  let run := checkForUpdates "https://awa.example" (Rejected "offline") [] in
  Caches.match_in STATIC_CACHE (resolve "https://awa.example" "/index.html") []
  = None
  /\ logged run = ["offline"]
  /\ update_result run = CheckFailed
  /\ update_result run <> UpToDate.
Proof.
  repeat split. discriminate.
Qed.

(** C6. checkForUpdates writes to no cache: whatever the storage, the
    outcome of the fetch and the result of the comparison, every cache has
    the entries after the run that it had before, every lookup gives what it
    gave before, and the storage is the one before the run, up to the empty
    static-cache-v1 that [caches.open] creates when there was none. *)
Theorem checkForUpdates_writes_nothing
    (origin : string) (net : FetchResult) (cs : CacheStorage) :
  let after := caches_after (checkForUpdates origin net cs) in
  (forall name, Caches.entries name after = Caches.entries name cs)
  /\ (forall name key,
        Caches.match_in name key after = Caches.match_in name key cs)
  /\ (forall key, Caches.match_any key after = Caches.match_any key cs)
  /\ (after = cs
      \/ (Caches.has STATIC_CACHE cs = false
          /\ after = cs ++ [(STATIC_CACHE, ∅)])).
Proof.
  assert (Hafter : caches_after (checkForUpdates origin net cs)
                   = Caches.open STATIC_CACHE cs).
  { unfold checkForUpdates. destruct net as [response|error]; [|reflexivity].
    destruct (status response =? 200); [|reflexivity].
    destruct (Caches.match_in _ _ _) as [cached|]; [|reflexivity].
    now destruct (negb _). }
  intros after. subst after. rewrite Hafter.
  split; [intros name; apply CachesFacts.entries_open|].
  split; [intros name key; unfold Caches.match_in;
          now rewrite CachesFacts.entries_open|].
  split; [intros key; apply CachesFacts.match_any_open|].
  apply CachesFacts.open_has.
Qed.

(** The comparison at work: a snapshot "A" and a fresh text "B" give a
    notification, twice in a row, and the snapshot stays "A". *)
Example checkForUpdates_new_version :
  let origin := "https://awa.example" in
  let cs := [(STATIC_CACHE,
              {[ "https://awa.example/index.html" := mkResponse 200 [] "A" ]})] in
  let run := checkForUpdates origin (Resolved (mkResponse 200 [] "B")) cs in
  let again :=
    checkForUpdates origin (Resolved (mkResponse 200 [] "B"))
                    (caches_after run) in
  shown run = [update_notification]
  /\ update_result run = NewVersionAvailable
  /\ caches_after run = cs
  /\ shown again = [update_notification].
Proof. vm_compute. repeat split. Qed.

(** ** The static cache is read-only after install *)

Section StaticReadOnly.
Import Caches CachesFacts.

Variable origin : string.

Lemma fetch_listener_targets request net cs :
  Forall targets_dynamic (ops_of (fetch_listener origin request net cs)).
Proof.
  apply List.Forall_forall. intros op Hop.
  destruct (fetch_listener_ops origin _ _ _ _ Hop) as [response ->].
  reflexivity.
Qed.

Lemma message_listener_targets data :
  Forall targets_dynamic (snd (message_listener origin data)).
Proof.
  destruct data as [d|]; simpl; [|constructor].
  destruct (String.eqb (type d) "CACHE_DATA"); repeat constructor.
Qed.

(** A write to the dynamic cache leaves the entries of every other cache
    as they are. *)
Lemma entries_run_op_dynamic op name cs :
  targets_dynamic op ->
  name <> DYNAMIC_CACHE ->
  entries name (run_op op cs) = entries name cs.
Proof.
  destruct op as [target key r]. unfold targets_dynamic, op_target.
  intros -> Hne. rewrite entries_run_op.
  destruct (String.eqb DYNAMIC_CACHE name) eqn:E; [|reflexivity].
  apply String.eqb_eq in E. congruence.
Qed.

Lemma entries_activate name cs :
  In name cacheWhitelist -> entries name (activate cs) = entries name cs.
Proof.
  intros Hin. unfold activate. rewrite sweep_filter.
  apply entries_filter. now apply includes_name_In.
Qed.

Lemma caches_after_checkForUpdates net cs :
  caches_after (checkForUpdates origin net cs) = open STATIC_CACHE cs.
Proof.
  unfold checkForUpdates. destruct net as [response|error]; [|reflexivity].
  destruct (status response =? 200); [|reflexivity].
  destruct (match_in _ _ _) as [cached|]; [|reflexivity].
  now destruct (negb _).
Qed.

Lemma Forall_delete_nth {A} (P : A -> Prop) (l : list A) i :
  Forall P l -> Forall P (base.delete i l).
Proof.
  intros H. revert i. induction H as [|x l Hx Hl IH]; intros [|i]; simpl;
    try constructor; auto.
Qed.

(** One event: the entries of the static cache stay, and the pending
    writes still all go to the dynamic cache. *)
Lemma step_static_read_only (w : World) (ev : Event) :
  Forall targets_dynamic (pending w) ->
  entries STATIC_CACHE (storage (step origin w ev))
    = entries STATIC_CACHE (storage w)
  /\ Forall targets_dynamic (pending (step origin w ev)).
Proof.
  intros Hp. destruct ev as [|request net|data|sync_tag net|i]; simpl.
  - split; [|assumption].
    apply entries_activate. left. reflexivity.
  - split; [reflexivity|].
    apply Forall_app. split; [assumption | apply fetch_listener_targets].
  - split; [reflexivity|].
    apply Forall_app. split; [assumption | apply message_listener_targets].
  - destruct (String.eqb sync_tag "update-check"); simpl; [|auto].
    split; [|assumption].
    rewrite caches_after_checkForUpdates. apply entries_open.
  - destruct (pending w !! i) as [op|] eqn:E; simpl; [|auto].
    split.
    + apply entries_run_op_dynamic; [|discriminate].
      rewrite List.Forall_forall in Hp. apply Hp.
      apply list_elem_of_In. eapply list_elem_of_lookup_2. exact E.
    + now apply Forall_delete_nth.
Qed.

Lemma run_static_read_only (evs : list Event) (w : World) :
  Forall targets_dynamic (pending w) ->
  entries STATIC_CACHE (storage (run origin w evs))
    = entries STATIC_CACHE (storage w)
  /\ Forall targets_dynamic (pending (run origin w evs)).
Proof.
  revert w. induction evs as [|ev evs IH]; intros w Hp; simpl.
  - auto.
  - destruct (step_static_read_only w ev Hp) as [He Hp'].
    destruct (IH _ Hp') as [He' Hp''].
    split; [congruence | assumption].
Qed.

(** An existing static cache is never removed either. *)
Lemma step_keeps_static (w : World) (ev : Event) :
  In STATIC_CACHE (keys (storage w)) ->
  In STATIC_CACHE (keys (storage (step origin w ev))).
Proof.
  intros Hin. destruct ev as [|request net|data|sync_tag net|i]; simpl;
    try assumption.
  - unfold activate. rewrite sweep_filter, keys_filter.
    apply filter_In. split; [assumption | reflexivity].
  - destruct (String.eqb sync_tag "update-check"); simpl; [|assumption].
    rewrite caches_after_checkForUpdates. now apply keys_open_incl.
  - destruct (pending w !! i) as [op|]; simpl; [|assumption].
    now apply keys_run_op_incl.
Qed.

End StaticReadOnly.

(** C9. Outside install nothing writes to static-cache-v1. Every write the
    fetch listener starts, in any of its three branches, and the write of
    the message listener go to dynamic-cache-v1, which is another cache; and
    along any sequence of activations, fetch events, messages, periodic
    syncs and completions of pending writes, in any order, the entries of
    static-cache-v1 stay what they were, while the writes still pending all
    go to dynamic-cache-v1. *)
Theorem static_cache_read_only_after_install
    (origin : string) (cs : CacheStorage) (evs : list Event) :
  let w := run origin (mkWorld cs []) evs in
  Caches.entries STATIC_CACHE (storage w) = Caches.entries STATIC_CACHE cs
  /\ Forall targets_dynamic (pending w)
  /\ (forall request net cs' op,
        In op (ops_of (fetch_listener origin request net cs')) ->
        op_target op = DYNAMIC_CACHE)
  /\ (forall data op,
        In op (snd (message_listener origin data)) ->
        op_target op = DYNAMIC_CACHE)
  /\ DYNAMIC_CACHE <> STATIC_CACHE
  /\ (forall op cs',
        op_target op = DYNAMIC_CACHE ->
        Caches.entries STATIC_CACHE (run_op op cs')
        = Caches.entries STATIC_CACHE cs').
Proof.
  intros w. subst w.
  destruct (run_static_read_only origin evs (mkWorld cs [])) as [He Hp];
    [constructor|].
  split; [exact He|]. split; [exact Hp|]. split; [|split; [|split]].
  - intros request net cs' op Hop.
    pose proof (fetch_listener_targets origin request net cs') as H.
    rewrite List.Forall_forall in H. now apply H.
  - intros data op Hop.
    pose proof (message_listener_targets origin data) as H.
    rewrite List.Forall_forall in H. now apply H.
  - discriminate.
  - intros op cs' Hop. apply entries_run_op_dynamic; [exact Hop | discriminate].
Qed.

(** ** install: what the static cache holds afterwards *)

Section Install.
Import Caches CachesFacts.

Variable origin : string.

Lemma has_put name name' key r cs :
  has name' (put name key r cs) = has name' cs.
Proof.
  induction cs as [|[n m] rest IH]; [reflexivity|].
  cbn [put]. destruct (String.eqb n name); [now rewrite !has_cons|].
  now rewrite !has_cons, IH.
Qed.

Lemma has_open name cs : has name (open name cs) = true.
Proof.
  induction cs as [|[n m] rest IH].
  - rewrite open_nil, has_cons. now rewrite String.eqb_refl.
  - rewrite open_cons. destruct (String.eqb n name) eqn:E;
      rewrite has_cons, E; [reflexivity | exact IH].
Qed.

Lemma open_id name cs : has name cs = true -> open name cs = cs.
Proof. unfold open. now intros ->. Qed.

(** On an existing cache [cache.put] is the write of [run_op]. *)
Lemma put_run_op name key r cs :
  has name cs = true -> put name key r cs = run_op (OpenPut name key r) cs.
Proof. intros H. unfold run_op. now rewrite (open_id _ _ H). Qed.

Lemma entries_put name key r name' cs :
  has name cs = true ->
  entries name' (put name key r cs) =
  if String.eqb name name' then write key r (entries name cs)
  else entries name' cs.
Proof. intros H. rewrite (put_run_op _ _ _ _ H). apply entries_run_op. Qed.

Lemma keys_put name key r cs : keys (put name key r cs) = keys cs.
Proof.
  induction cs as [|[n m] rest IH]; [reflexivity|].
  cbn [put]. destruct (String.eqb n name); [reflexivity|].
  unfold keys in *. simpl. now rewrite IH.
Qed.

(** The puts of [addAll], seen from the cache they go to and from the
    others. *)
Lemma entries_put_all name (l : list (string * Response)) cs :
  has name cs = true ->
  has name (fold_left (fun st p => put name (fst p) (snd p) st) l cs) = true
  /\ entries name (fold_left (fun st p => put name (fst p) (snd p) st) l cs)
     = fold_left (fun m p => write (fst p) (snd p) m) l (entries name cs)
  /\ (forall name', name' <> name ->
        entries name'
          (fold_left (fun st p => put name (fst p) (snd p) st) l cs)
        = entries name' cs)
  /\ keys (fold_left (fun st p => put name (fst p) (snd p) st) l cs) = keys cs.
Proof.
  revert cs. induction l as [|[k r] l IH]; intros cs H; simpl.
  - repeat split; auto.
  - assert (H' : has name (put name k r cs) = true) by now rewrite has_put.
    destruct (IH _ H') as (Hh & He & Ho & Hk).
    split; [exact Hh|]. split; [|split].
    + rewrite He, (entries_put _ _ _ _ _ H). now rewrite String.eqb_refl.
    + intros name' Hne. rewrite (Ho _ Hne), (entries_put _ _ _ _ _ H).
      destruct (String.eqb name name') eqn:E; [|reflexivity].
      apply String.eqb_eq in E. congruence.
    + now rewrite Hk, keys_put.
Qed.






Lemma addAll_fetch_one_bad net urls u :
  In u urls ->
  (forall r, net u = Resolved r -> response_ok r = false) ->
  addAll_fetch net urls = None.
Proof.
  intros Hin Hbad. induction urls as [|u' urls IH]; [destruct Hin|].
  simpl. destruct (net u') as [r|e] eqn:E; [|reflexivity].
  destruct (response_ok r) eqn:Hok; [|reflexivity].
  destruct Hin as [->|Hin].
  - rewrite (Hbad _ E) in Hok. discriminate.
  - now rewrite (IH Hin).
Qed.


End Install.




(** X2. install is all or nothing: when the fetch of one asset of the list
    fails or resolves with a status outside 200..299, nothing is cached, not
    even the assets that were fetched well; the storage is the one before,
    with static-cache-v1 created if it was absent. *)
Theorem install_one_bad_asset_caches_nothing
    (origin : string) (net : string -> FetchResult) (cs : CacheStorage)
    (path : string) :
  In path STATIC_ASSETS ->
  (forall r, net (resolve origin path) = Resolved r -> response_ok r = false) ->
  install origin net cs = Caches.open STATIC_CACHE cs
  /\ (forall name,
        Caches.entries name (install origin net cs) = Caches.entries name cs).
Proof.
  intros Hin Hbad.
  assert (H : install origin net cs = Caches.open STATIC_CACHE cs).
  { unfold install, addAll.
    now rewrite (addAll_fetch_one_bad net _ (resolve origin path)
                   (in_map _ _ _ Hin) Hbad). }
  split; [exact H|]. intros name. rewrite H.
  apply CachesFacts.entries_open.
Qed.

Lemma install_one_bad_asset_caches_nothing_witness :
  let net := fun u =>
    if String.eqb u "https://awa.example/logo.png"
    then Resolved (mkResponse 404 [] "Not Found")
    else Resolved (mkResponse 200 [] "ok") in
  install "https://awa.example" net [] = [(STATIC_CACHE, ∅)].
Proof.
  intros net.
  destruct (install_one_bad_asset_caches_nothing "https://awa.example" net []
              "/logo.png") as [H _].
  - simpl. tauto.
  - intros r. unfold net. simpl. intros [= <-]. reflexivity.
  - exact H.
Defined.

(** X3. install writes to static-cache-v1 only: whatever the fetches give,
    every other cache has the entries it had, and the caches that exist are
    those that existed, plus static-cache-v1. *)
Theorem install_touches_static_cache_only
    (origin : string) (net : string -> FetchResult) (cs : CacheStorage) :
  (forall name, name <> STATIC_CACHE ->
     Caches.entries name (install origin net cs) = Caches.entries name cs)
  /\ Caches.keys (install origin net cs)
     = Caches.keys (Caches.open STATIC_CACHE cs)
  /\ Caches.has STATIC_CACHE (install origin net cs) = true.
Proof.
  unfold install, addAll.
  destruct (addAll_fetch net (map (resolve origin) STATIC_ASSETS)) as [l|].
  - destruct (entries_put_all STATIC_CACHE l _ (has_open STATIC_CACHE cs))
      as (Hh & _ & Ho & Hk).
    split; [|split; [exact Hk | exact Hh]].
    intros name Hne. rewrite (Ho _ Hne). apply CachesFacts.entries_open.
  - split; [|split; [reflexivity | apply has_open]].
    intros name _. apply CachesFacts.entries_open.
Qed.

(** ** What offline requests are answered with *)

Section Offline.
Import Caches CachesFacts.

Variable origin : string.



Lemma step_static_first m (w : World) (ev : Event) :
  Forall targets_dynamic (pending w) ->
  static_first m (storage w) ->
  static_first m (storage (step origin w ev)).
Proof.
  intros Hp [rest Hw].
  destruct ev as [|request net|data|sync_tag net|i]; simpl.
  - rewrite Hw. unfold activate. rewrite sweep_filter. simpl. now eexists.
  - now exists rest.
  - now exists rest.
  - destruct (String.eqb sync_tag "update-check"); simpl; [|now exists rest].
    rewrite caches_after_checkForUpdates, Hw, open_cons. simpl. now eexists.
  - destruct (pending w !! i) as [op|] eqn:E; simpl; [|now exists rest].
    assert (Hop : targets_dynamic op).
    { rewrite List.Forall_forall in Hp. apply Hp.
      apply list_elem_of_In. eapply list_elem_of_lookup_2. exact E. }
    destruct op as [target key r]. unfold targets_dynamic, op_target in Hop.
    subst target. rewrite Hw, run_op_cons. simpl. now eexists.
Qed.

Lemma run_static_first m (evs : list Event) (w : World) :
  Forall targets_dynamic (pending w) ->
  static_first m (storage w) ->
  static_first m (storage (run origin w evs)).
Proof.
  revert w. induction evs as [|ev evs IH]; intros w Hp Hs; simpl; [exact Hs|].
  apply IH.
  - apply (step_static_read_only origin w ev Hp).
  - now apply step_static_first.
Qed.

Lemma match_any_static_first m cs key old :
  static_first m cs -> m !! key = Some old -> match_any key cs = Some old.
Proof. intros [rest ->] H. simpl. unfold find. now rewrite H. Qed.

End Offline.



(** X5. The promise given to respondWith rejects in one situation only: a
    static-asset request that no cache holds, whose fetch failed, and whose
    URL does not end with an image extension; the rejection carries the
    error of the fetch. Navigation and api/data requests never reject. *)
Theorem fetch_rejects_only_for_uncached_non_image_asset
    (origin : string) (request : Request) (net : FetchResult)
    (cs : CacheStorage) (error : string) :
  reply_of (fetch_listener origin request net cs) = Some (Throw error)
  <->
  classify request = StaticAsset
  /\ net = Rejected error
  /\ Caches.match_any (url request) cs = None
  /\ ~ Str.ends_with_dot_ext image_alts (url request).
Proof.
  rewrite fetch_listener_dispatch, <- is_image_spec.
  destruct (classify request); simpl.
  - unfold navigate_branch. split; [|intros (H & _); discriminate].
    destruct net as [r|e]; simpl; [discriminate|].
    destruct (Caches.match_any (url request) cs); simpl; [discriminate|].
    destruct (Caches.match_any _ cs); discriminate.
  - unfold static_asset_branch.
    destruct (Caches.match_any (url request) cs) as [c|]; simpl.
    + split; [discriminate | intros (_ & _ & H & _); discriminate].
    + destruct net as [r|e]; simpl.
      * split; [discriminate | intros (_ & H & _); discriminate].
      * destruct (is_image (url request)); simpl.
        -- split; [discriminate | intros (_ & _ & _ & H); now destruct H].
        -- split.
           ++ intros [= ->]. repeat split; auto; discriminate.
           ++ intros (_ & [= ->] & _). reflexivity.
  - unfold api_data_branch. split; [|intros (H & _); discriminate].
    destruct net as [r|e]; simpl; [discriminate|].
    destruct (Caches.match_any (url request) cs); discriminate.
  - split; [discriminate | intros (H & _); discriminate].
Qed.

(** X6. When static-cache-v1 is the cache created first, what it holds for
    a URL is what every lookup across the caches returns for that URL from
    then on, whatever is fetched, stored, swept or checked later: a failed
    navigation to the URL and every static-asset request for it are
    answered with that install-time copy. *)
Theorem install_copy_is_served_forever
    (origin : string) (m : Cache) (rest : CacheStorage) (evs : list Event)
    (key : string) (old : Response) :
  m !! key = Some old ->
  let w := run origin (mkWorld ((STATIC_CACHE, m) :: rest) []) evs in
  Caches.match_any key (storage w) = Some old
  /\ (forall request error,
        classify request = Navigate -> url request = key ->
        fetch_listener origin request (Rejected error) (storage w)
        = RespondWith (Respond old) [])
  /\ (forall request net,
        classify request = StaticAsset -> url request = key ->
        reply_of (fetch_listener origin request net (storage w))
        = Some (Respond old)).
Proof.
  intros Hm w.
  assert (Hs : static_first m (storage w)).
  { apply run_static_first; [constructor | now exists rest]. }
  pose proof (match_any_static_first _ _ _ _ Hs Hm) as Hhit.
  split; [exact Hhit|]. split.
  - intros request error Hc <-.
    rewrite (fetch_listener_navigate origin _ _ _ Hc).
    unfold navigate_branch. now rewrite Hhit.
  - intros request net Hc <-.
    rewrite (fetch_listener_static origin _ _ _ Hc).
    unfold static_asset_branch. now rewrite Hhit.
Qed.

Lemma install_copy_is_served_forever_witness :
  let v1 := mkResponse 200 [] "v1" in
  let v2 := mkResponse 200 [] "v2" in
  let request := mkRequest "GET" "https://awa.example/logo.png" "no-cors" in
  let w :=
    run "https://awa.example"
      (mkWorld [(STATIC_CACHE, {[ "https://awa.example/logo.png" := v1 ]})] [])
      [EvFetch request (Resolved v2); EvComplete 0; EvActivate] in
  Caches.match_in DYNAMIC_CACHE "https://awa.example/logo.png" (storage w)
  = Some v2
  /\ Caches.match_any "https://awa.example/logo.png" (storage w) = Some v1.
Proof.
  intros v1 v2 request w. split; [reflexivity|].
  apply (install_copy_is_served_forever "https://awa.example"
           {[ "https://awa.example/logo.png" := v1 ]} []
           [EvFetch request (Resolved v2); EvComplete 0; EvActivate]
           "https://awa.example/logo.png" v1).
  reflexivity.
Defined.

(** ** Writes: how they overwrite and commute *)

Section Writes.
Import Caches CachesFacts.

Lemma store_overwrite k r1 r2 (m : Cache) :
  store k r2 (store k r1 m) = store k r2 m.
Proof.
  unfold store. apply map_eq. intros i. apply option_eq. intros x.
  rewrite !lookup_insert_Some, !map_lookup_filter_Some, lookup_insert_Some,
    map_lookup_filter_Some. simpl. intuition congruence.
Qed.

Lemma write_overwrite k r1 r2 (m : Cache) :
  put_accepts r2 = true -> write k r2 (write k r1 m) = write k r2 m.
Proof.
  intros H2. unfold write. rewrite H2.
  destruct (put_accepts r1); [apply store_overwrite | reflexivity].
Qed.

Lemma store_commute k1 k2 r1 r2 (m : Cache) :
  without_fragment k1 <> without_fragment k2 ->
  store k1 r1 (store k2 r2 m) = store k2 r2 (store k1 r1 m).
Proof.
  intros Hne. unfold store. apply map_eq. intros i. apply option_eq.
  intros x.
  rewrite !lookup_insert_Some, !map_lookup_filter_Some, !lookup_insert_Some,
    !map_lookup_filter_Some. simpl.
  assert (k1 <> k2) by congruence. intuition congruence.
Qed.

Lemma write_commute k1 k2 r1 r2 (m : Cache) :
  without_fragment k1 <> without_fragment k2 ->
  write k1 r1 (write k2 r2 m) = write k2 r2 (write k1 r1 m).
Proof.
  intros Hne. unfold write.
  destruct (put_accepts r1), (put_accepts r2); try reflexivity.
  now apply store_commute.
Qed.

Lemma run_op_twice name k1 k2 r1 r2 cs :
  run_op (OpenPut name k1 r1) (run_op (OpenPut name k2 r2) cs) =
  match cs with
  | [] => [(name, write k1 r1 (write k2 r2 ∅))]
  | _ => run_op (OpenPut name k1 r1) (run_op (OpenPut name k2 r2) cs)
  end.
Proof.
  destruct cs; [|reflexivity].
  now rewrite run_op_nil, run_op_cons, String.eqb_refl.
Qed.

(** A later accepted write for the same URL leaves no trace of the
    earlier one. *)
Lemma run_op_overwrite name key r1 r2 cs :
  put_accepts r2 = true ->
  run_op (OpenPut name key r2) (run_op (OpenPut name key r1) cs)
  = run_op (OpenPut name key r2) cs.
Proof.
  intros H2. induction cs as [|[n m] rest IH].
  - rewrite run_op_twice, run_op_nil. now rewrite write_overwrite.
  - rewrite !(run_op_cons _ _ _ n m rest).
    destruct (String.eqb n name) eqn:E; rewrite run_op_cons, E.
    + now rewrite write_overwrite.
    + now rewrite IH.
Qed.

Lemma run_op_commute name k1 k2 r1 r2 cs :
  without_fragment k1 <> without_fragment k2 ->
  run_op (OpenPut name k1 r1) (run_op (OpenPut name k2 r2) cs)
  = run_op (OpenPut name k2 r2) (run_op (OpenPut name k1 r1) cs).
Proof.
  intros Hne. induction cs as [|[n m] rest IH].
  - rewrite !run_op_twice. now rewrite write_commute.
  - rewrite !(run_op_cons _ _ _ n m rest).
    destruct (String.eqb n name) eqn:E; rewrite !run_op_cons, !E.
    + now rewrite write_commute.
    + now rewrite IH.
Qed.

(** A write into the cache called [name] changes nothing of what the
    earlier caches hold. *)
Lemma held_before_run_op name key key' r cs :
  held_before name key (run_op (OpenPut name key' r) cs)
  = held_before name key cs.
Proof.
  induction cs as [|[n m] rest IH].
  - rewrite run_op_nil. simpl. now rewrite String.eqb_refl.
  - rewrite run_op_cons. destruct (String.eqb n name) eqn:E;
      cbn [held_before]; rewrite E; [reflexivity|]. now rewrite IH.
Qed.

Variable origin : string.

(** A fetch event starts one write at most, into the dynamic cache and
    under the URL of its request. *)
Lemma fetch_listener_one_write request net cs :
  ops_of (fetch_listener origin request net cs) = []
  \/ exists response,
       ops_of (fetch_listener origin request net cs)
       = [OpenPut DYNAMIC_CACHE (url request) response].
Proof.
  rewrite fetch_listener_dispatch.
  destruct (classify request); simpl; [| | |now left].
  - unfold navigate_branch. destruct net as [response|e]; [right; eauto|].
    destruct (match_any (url request) cs); now left.
  - unfold static_asset_branch.
    destruct (match_any (url request) cs), net as [response|e]; simpl;
      try (right; eauto; fail); try (now left).
    destruct (is_image (url request)); now left.
  - unfold api_data_branch. destruct net as [response|e]; [|now left].
    simpl. destruct (status response =? 200); [right; eauto | now left].
Qed.

(** The response the message listener stores for a CACHE_DATA message. *)
Lemma message_listener_cache_data d :
  type d = "CACHE_DATA" ->
  message_listener origin (Some d)
  = (false,
     [OpenPut DYNAMIC_CACHE (resolve origin "/api/calculation-data")
        match payload_json d with
        | Some text => new_Response text []
        | None => new_Response_undefined
        end]).
Proof. intros H. unfold message_listener. now rewrite H. Qed.

Lemma put_accepts_message d :
  put_accepts match payload_json d with
              | Some text => new_Response text []
              | None => new_Response_undefined
              end = true.
Proof. now destruct (payload_json d). Qed.

End Writes.

(** X7. Two CACHE_DATA messages: when their writes complete in the order of
    the messages, the worker ends as if only the second message had come,
    and dynamic-cache-v1 holds the second payload under
    /api/calculation-data. The writes are not awaited: when they complete
    in the other order, it holds the first payload. *)
Theorem cache_data_last_completed_write_wins
    (origin : string) (d1 d2 : MessageData) (cs : CacheStorage) :
  type d1 = "CACHE_DATA" ->
  type d2 = "CACHE_DATA" ->
  let stored d :=
    match payload_json d with
    | Some text => new_Response text []
    | None => new_Response_undefined
    end in
  let w := run origin (mkWorld cs []) [EvMessage (Some d1); EvMessage (Some d2)] in
  run origin w [EvComplete 0%nat; EvComplete 0%nat]
    = run origin (mkWorld cs []) [EvMessage (Some d2); EvComplete 0%nat]
  /\ Caches.match_in DYNAMIC_CACHE (resolve origin "/api/calculation-data")
       (storage (run origin w [EvComplete 0%nat; EvComplete 0%nat]))
     = Some (stored d2)
  /\ Caches.match_in DYNAMIC_CACHE (resolve origin "/api/calculation-data")
       (storage (run origin w [EvComplete 1%nat; EvComplete 0%nat]))
     = Some (stored d1).
Proof.
  intros H1 H2 stored w. subst w.
  unfold run. cbn [fold_left step storage pending].
  rewrite (message_listener_cache_data origin d1 H1),
          (message_listener_cache_data origin d2 H2).
  fold (stored d1). fold (stored d2). cbn [snd app].
  change (mkWorld
            (run_op (OpenPut DYNAMIC_CACHE
                       (resolve origin "/api/calculation-data") (stored d2))
               (run_op (OpenPut DYNAMIC_CACHE
                          (resolve origin "/api/calculation-data") (stored d1))
                  cs)) []
          = mkWorld
              (run_op (OpenPut DYNAMIC_CACHE
                         (resolve origin "/api/calculation-data") (stored d2))
                 cs) []
          /\ Caches.match_in DYNAMIC_CACHE
               (resolve origin "/api/calculation-data")
               (run_op (OpenPut DYNAMIC_CACHE
                          (resolve origin "/api/calculation-data") (stored d2))
                  (run_op (OpenPut DYNAMIC_CACHE
                             (resolve origin "/api/calculation-data")
                             (stored d1)) cs))
             = Some (stored d2)
          /\ Caches.match_in DYNAMIC_CACHE
               (resolve origin "/api/calculation-data")
               (run_op (OpenPut DYNAMIC_CACHE
                          (resolve origin "/api/calculation-data") (stored d1))
                  (run_op (OpenPut DYNAMIC_CACHE
                             (resolve origin "/api/calculation-data")
                             (stored d2)) cs))
             = Some (stored d1)).
  rewrite (run_op_overwrite _ _ _ _ _ (put_accepts_message d2)).
  split; [reflexivity|].
  split; apply match_in_run_op; apply put_accepts_message.
Qed.

Lemma cache_data_last_completed_write_wins_witness :
  let first := mkMessageData "CACHE_DATA" (Some "{awa:1}") in
  let second := mkMessageData "CACHE_DATA" (Some "{awa:2}") in
  Caches.match_in DYNAMIC_CACHE "https://awa.example/api/calculation-data"
    (storage
       (run "https://awa.example"
          (run "https://awa.example" (mkWorld [] [])
             [EvMessage (Some first); EvMessage (Some second)])
          [EvComplete 0%nat; EvComplete 0%nat]))
  = Some (mkResponse 200 [("content-type", "text/plain;charset=UTF-8")]
            "{awa:2}").
Proof.
  intros first second.
  apply (cache_data_last_completed_write_wins "https://awa.example"
           first second [] eq_refl eq_refl).
Defined.

(** X8. The writes started by two fetch events whose URLs differ by more
    than the fragment may complete in either order: the worker ends in the
    same state. *)
Theorem writes_to_different_urls_commute
    (origin : string) (request1 request2 : Request)
    (net1 net2 : FetchResult) (cs : CacheStorage) :
  Caches.without_fragment (url request1)
    <> Caches.without_fragment (url request2) ->
  let w :=
    run origin (mkWorld cs []) [EvFetch request1 net1; EvFetch request2 net2]
  in
  run origin w [EvComplete 0%nat; EvComplete 0%nat]
  = run origin w [EvComplete 1%nat; EvComplete 0%nat].
Proof.
  intros Hne w. subst w.
  unfold run. cbn [fold_left step storage pending app].
  destruct (fetch_listener_one_write origin request1 net1 cs)
    as [-> | [r1 ->]];
    destruct (fetch_listener_one_write origin request2 net2 cs)
      as [-> | [r2 ->]]; try reflexivity.
  change (mkWorld
            (run_op (OpenPut DYNAMIC_CACHE (url request2) r2)
               (run_op (OpenPut DYNAMIC_CACHE (url request1) r1) cs)) []
          = mkWorld
              (run_op (OpenPut DYNAMIC_CACHE (url request1) r1)
                 (run_op (OpenPut DYNAMIC_CACHE (url request2) r2) cs)) []).
  f_equal. apply run_op_commute. congruence.
Qed.

Lemma writes_to_different_urls_commute_witness :
  let a := mkRequest "GET" "https://awa.example/a.css" "no-cors" in
  let b := mkRequest "GET" "https://awa.example/b.css" "no-cors" in
  let w :=
    run "https://awa.example" (mkWorld [] [])
      [EvFetch a (Resolved (mkResponse 200 [] "a"));
       EvFetch b (Resolved (mkResponse 200 [] "b"))] in
  run "https://awa.example" w [EvComplete 0%nat; EvComplete 0%nat]
  = run "https://awa.example" w [EvComplete 1%nat; EvComplete 0%nat].
Proof.
  intros a b.
  apply (writes_to_different_urls_commute "https://awa.example" a b
           (Resolved (mkResponse 200 [] "a"))
           (Resolved (mkResponse 200 [] "b")) []).
  discriminate.
Defined.





(** ** Requests left to the browser, and image requests *)

Section PassThrough.

Variable origin : string.

Lemma branches_respond request net cs :
  navigate_branch origin request net cs <> PassThrough
  /\ static_asset_branch request net cs <> PassThrough
  /\ api_data_branch request net cs <> PassThrough.
Proof.
  unfold navigate_branch, static_asset_branch, api_data_branch.
  repeat split.
  - destruct net; [discriminate|].
    destruct (Caches.match_any (url request) cs); discriminate.
  - destruct (Caches.match_any (url request) cs), net; try discriminate.
    destruct (is_image (url request)); discriminate.
  - destruct net; discriminate.
Qed.

Lemma classify_Skip_iff request :
  classify request = Skip <->
  method request <> "GET"
  \/ Str.has_prefix "chrome-extension://" (url request)
  \/ Str.contains "analytics" (url request)
  \/ Str.contains "telemetry" (url request).
Proof.
  unfold classify, Str.has_prefix, Str.contains.
  rewrite <- StrFacts.startsWith_spec, <- !StrFacts.includes_spec.
  destruct (String.eqb (method request) "GET") eqn:Em; simpl.
  - apply String.eqb_eq in Em.
    destruct (Str.startsWith "chrome-extension://" (url request)); [tauto|].
    destruct (Str.includes "analytics" (url request)); simpl; [tauto|].
    destruct (Str.includes "telemetry" (url request)); simpl; [tauto|].
    split; [|intros [H|[H|[H|H]]]; congruence].
    destruct (String.eqb (mode request) "navigate"); [discriminate|].
    destruct (is_static_asset (url request)); discriminate.
  - apply String.eqb_neq in Em. tauto.
Qed.

Lemma image_alt_is_static_alt e : In e image_alts -> In e static_asset_alts.
Proof. simpl. intuition. Qed.

Lemma is_image_is_static u : is_image u = true -> is_static_asset u = true.
Proof.
  rewrite is_image_spec, is_static_asset_spec.
  intros (pre & e & He & ->). exists pre, e.
  split; [now apply image_alt_is_static_alt | reflexivity].
Qed.

End PassThrough.

(** X11. The fetch listener leaves a request to the browser exactly when
    its method is not GET, or its URL starts with chrome-extension://, or
    its URL contains analytics or telemetry; such a request reads no cache,
    starts no write and leaves the worker as it was. Every other request is
    answered through respondWith. *)
Theorem pass_through_exactly_the_skipped
    (origin : string) (request : Request) (net : FetchResult)
    (cs : CacheStorage) :
  (fetch_listener origin request net cs = PassThrough <->
   method request <> "GET"
   \/ Str.has_prefix "chrome-extension://" (url request)
   \/ Str.contains "analytics" (url request)
   \/ Str.contains "telemetry" (url request))
  /\ (fetch_listener origin request net cs = PassThrough ->
      forall w, step origin w (EvFetch request net) = w).
Proof.
  assert (Hiff : fetch_listener origin request net cs = PassThrough
                 <-> classify request = Skip).
  { rewrite fetch_listener_dispatch.
    destruct (branches_respond origin request net cs) as (Hn & Hs & Ha).
    destruct (classify request); split; congruence. }
  split; [now rewrite Hiff, classify_Skip_iff|].
  intros H w. apply Hiff in H. destruct w as [st pd]. simpl.
  rewrite fetch_listener_dispatch, H. simpl. now rewrite app_nil_r.
Qed.

(** X12. A request whose URL ends with an image extension is never handled
    by the api/data branch, and the promise given to respondWith for it
    never rejects, whatever the network and the caches: every image
    extension is among the static-asset extensions. *)
Theorem image_requests_never_reject
    (origin : string) (request : Request) (net : FetchResult)
    (cs : CacheStorage) :
  Str.ends_with_dot_ext image_alts (url request) ->
  Str.ends_with_dot_ext static_asset_alts (url request)
  /\ classify request <> ApiData
  /\ (forall error,
        reply_of (fetch_listener origin request net cs) <> Some (Throw error)).
Proof.
  intros Hi. apply is_image_spec in Hi.
  pose proof (is_image_is_static _ Hi) as Hs.
  split; [now apply is_static_asset_spec|]. split.
  - unfold classify. rewrite Hs.
    repeat match goal with |- context [if ?b then _ else _] => destruct b end;
      discriminate.
  - intros error. unfold fetch_listener. rewrite Hs.
    repeat match goal with
           | |- context [if ?b then _ else _] => destruct b
           end; try discriminate.
    + unfold navigate_branch. destruct net; [discriminate|].
      destruct (Caches.match_any (url request) cs); [discriminate|].
      destruct (Caches.match_any _ cs); discriminate.
    + unfold static_asset_branch. rewrite Hi.
      destruct (Caches.match_any (url request) cs), net; discriminate.
Qed.

Lemma image_requests_never_reject_witness :
  Str.ends_with_dot_ext static_asset_alts "https://awa.example/photo.jpeg".
Proof.
  apply (image_requests_never_reject "https://awa.example"
           (mkRequest "GET" "https://awa.example/photo.jpeg" "no-cors")
           (Rejected "offline") []).
  apply is_image_spec. reflexivity.
Defined.

(** ** The update check, over time *)

Section UpdateCheck.
Import Caches CachesFacts.

Variable origin : string.

(** A run shows and logs what the fetch and the entries of the static
    cache make it show and log. *)
Lemma checkForUpdates_reads_static net cs cs' :
  entries STATIC_CACHE cs = entries STATIC_CACHE cs' ->
  shown (checkForUpdates origin net cs) = shown (checkForUpdates origin net cs')
  /\ logged (checkForUpdates origin net cs)
     = logged (checkForUpdates origin net cs').
Proof.
  intros He. unfold checkForUpdates, match_in.
  rewrite !entries_open, He.
  destruct net as [response|error]; [|split; reflexivity].
  destruct (status response =? 200); [|split; reflexivity].
  destruct (find _ (entries STATIC_CACHE cs')) as [cached|];
    [|split; reflexivity].
  destruct (negb _); split; reflexivity.
Qed.

End UpdateCheck.

(** X13. checkForUpdates shows a notification, and then exactly the one
    update notification, if and only if the fetch of /index.html resolved
    with status 200, static-cache-v1 holds an entry for /index.html, and
    the two bodies differ; statuses and headers play no part in the
    comparison. In every other case nothing is shown. *)
Theorem update_notification_iff
    (origin : string) (net : FetchResult) (cs : CacheStorage) :
  (shown (checkForUpdates origin net cs) = [update_notification]
   \/ shown (checkForUpdates origin net cs) = [])
  /\ (shown (checkForUpdates origin net cs) = [update_notification] <->
      exists response cached,
        net = Resolved response
        /\ status response = 200
        /\ Caches.match_in STATIC_CACHE (resolve origin "/index.html") cs
           = Some cached
        /\ body cached <> body response).
Proof.
  unfold checkForUpdates, Caches.match_in.
  rewrite CachesFacts.entries_open.
  destruct net as [response|error]; simpl.
  2:{ split; [now right|]. split; [discriminate|].
      intros (r & c & H & _). discriminate. }
  destruct (status response =? 200) eqn:Es.
  2:{ simpl. split; [now right|]. split; [discriminate|].
      intros (r & c & [= <-] & H & _). apply Z.eqb_neq in Es. contradiction. }
  apply Z.eqb_eq in Es.
  destruct (Caches.find (resolve origin "/index.html")
              (Caches.entries STATIC_CACHE cs)) as [cached|] eqn:Ec.
  2:{ simpl. split; [now right|]. split; [discriminate|].
      intros (r & c & _ & _ & H & _). discriminate. }
  destruct (String.eqb (body cached) (body response)) eqn:Eb; simpl.
  - apply String.eqb_eq in Eb. split; [now right|]. split; [discriminate|].
    intros (r & c & [= <-] & _ & [= <-] & H). contradiction.
  - apply String.eqb_neq in Eb. split; [now left|]. split; [|reflexivity].
    intros _. exists response, cached. auto.
Qed.

(** X14. What an update check shows and logs does not depend on anything
    the worker did since install: after any sequence of activations, fetch
    events, messages, earlier update checks and completed writes, a check
    that fetches the same response shows and logs the same. In particular a
    notification raised once is raised again by every later check that
    fetches the same new text. *)
Theorem update_check_unaffected_by_traffic
    (origin : string) (cs : CacheStorage) (evs : list Event)
    (net : FetchResult) :
  let w := run origin (mkWorld cs []) evs in
  shown (checkForUpdates origin net (storage w))
    = shown (checkForUpdates origin net cs)
  /\ logged (checkForUpdates origin net (storage w))
     = logged (checkForUpdates origin net cs)
  /\ update_result (checkForUpdates origin net (storage w))
     = update_result (checkForUpdates origin net cs).
Proof.
  intros w. subst w.
  destruct (run_static_read_only origin evs (mkWorld cs [])) as [He _];
    [constructor|].
  destruct (checkForUpdates_reads_static origin net _ _ He) as [Hs Hl].
  split; [exact Hs|]. split; [exact Hl|].
  unfold update_result. now rewrite Hs, Hl.
Qed.



(** ** The sweep, repeated *)

Section SweepAgain.

Lemma filter_id_iff {A} (P : A -> bool) (l : list A) :
  List.filter P l = l <-> (forall x, In x l -> P x = true).
Proof.
  induction l as [|x l IH]; simpl; [tauto|].
  destruct (P x) eqn:E.
  - split.
    + intros [= H]. intros y [<-|Hy]; [exact E | now apply IH].
    + intros H. f_equal. apply IH. auto.
  - split.
    + intros H. assert (Hin : In x (List.filter P l))
        by (rewrite H; now left).
      apply filter_In in Hin as [_ Hx]. congruence.
    + intros H. specialize (H x (or_introl eq_refl)). congruence.
Qed.

Lemma filter_idem {A} (P : A -> bool) (l : list A) :
  List.filter P (List.filter P l) = List.filter P l.
Proof. apply filter_id_iff. intros x Hx. now apply filter_In in Hx. Qed.

End SweepAgain.

(** X16. The activation sweep is idempotent: run twice in a row it leaves
    the storage that one run leaves, for any retain list. *)
Theorem sweep_idempotent (retain : list string) (cs : CacheStorage) :
  sweep retain (sweep retain cs) = sweep retain cs
  /\ activate (activate cs) = activate cs.
Proof.
  unfold activate. rewrite !sweep_filter.
  split; apply filter_idem.
Qed.

(** X17. The activation sweep changes the storage if and only if some
    existing cache has a name other than static-cache-v1 and
    dynamic-cache-v1. *)
Theorem activate_is_identity_iff (cs : CacheStorage) :
  activate cs = cs <->
  (forall name, In name (Caches.keys cs) ->
     name = STATIC_CACHE \/ name = DYNAMIC_CACHE).
Proof.
  unfold activate, cacheWhitelist. rewrite sweep_filter, filter_id_iff.
  split.
  - intros H name Hin. unfold Caches.keys in Hin.
    apply in_map_iff in Hin as (p & <- & Hp).
    specialize (H p Hp). apply includes_name_In in H. simpl in H.
    intuition.
  - intros H p Hp. apply includes_name_In.
    destruct (H (fst p)) as [->| ->]; [now apply in_map | |]; simpl; auto.
Qed.

(** ** notificationclick *)

Section Click.

Lemma first_focusable_none clientList :
  (forall c, In c clientList -> client_url c <> "/" \/ has_focus c = false) ->
  first_focusable clientList = None.
Proof.
  induction clientList as [|c rest IH]; intros H; simpl; [reflexivity|].
  destruct (H c (or_introl eq_refl)) as [Hu|Hf].
  - apply String.eqb_neq in Hu. rewrite Hu. simpl. apply IH. auto with datatypes.
  - rewrite Hf, andb_false_r. apply IH. auto with datatypes.
Qed.

Lemma first_focusable_app before c after :
  first_focusable before = None ->
  client_url c = "/" -> has_focus c = true ->
  first_focusable (before ++ c :: after) = Some c.
Proof.
  intros Hb Hu Hf. induction before as [|b before IH]; simpl in *.
  - now rewrite Hu, Hf.
  - destruct (String.eqb (client_url b) "/" && has_focus b); [discriminate|].
    now apply IH.
Qed.

End Click.

(** X18. A click on a notification (other than on its close action) opens
    a new window at '/' whenever no client has exactly the URL '/': the
    listener compares [client.url] with the path '/', so clients whose URL
    is an absolute URL are never focused, however many are open. *)
Theorem notification_click_opens_window_unless_url_is_slash
    (event_action : string) (clientList : list Client) :
  event_action <> "close" ->
  (forall c, In c clientList -> client_url c <> "/") ->
  notificationclick_listener event_action clientList true
  = [CloseNotification; OpenWindow "/"]
  /\ notificationclick_listener event_action clientList false
     = [CloseNotification].
Proof.
  intros Ha Hc. unfold notificationclick_listener.
  apply String.eqb_neq in Ha. rewrite Ha.
  rewrite first_focusable_none; [split; reflexivity|].
  intros c Hin. left. now apply Hc.
Qed.

Lemma notification_click_opens_window_unless_url_is_slash_witness :
  notificationclick_listener "open"
    [mkClient "https://awa.example/" true] true
  = [CloseNotification; OpenWindow "/"].
Proof.
  apply (notification_click_opens_window_unless_url_is_slash "open"
           [mkClient "https://awa.example/" true]).
  - discriminate.
  - intros c [<-|[]]. discriminate.
Defined.

(** X19. The notification is closed on every click, before anything else.
    On the close action nothing more happens. Otherwise, when some client
    has the URL '/' and can be focused, the first such client in the list is
    focused and no window is opened. *)
Theorem notification_click_focuses_first_match
    (event_action : string) (before after : list Client) (c : Client)
    (can_open : bool) :
  (forall b, In b before -> client_url b <> "/" \/ has_focus b = false) ->
  client_url c = "/" ->
  has_focus c = true ->
  notificationclick_listener "close" (before ++ c :: after) can_open
  = [CloseNotification]
  /\ (event_action <> "close" ->
      notificationclick_listener event_action (before ++ c :: after) can_open
      = [CloseNotification; FocusClient c]).
Proof.
  intros Hb Hu Hf. split; [reflexivity|].
  intros Ha. unfold notificationclick_listener.
  apply String.eqb_neq in Ha. rewrite Ha.
  now rewrite (first_focusable_app before c after
                 (first_focusable_none _ Hb) Hu Hf).
Qed.

Lemma notification_click_focuses_first_match_witness :
  notificationclick_listener ""
    [mkClient "https://awa.example/" true; mkClient "/" true;
     mkClient "/" true] true
  = [CloseNotification; FocusClient (mkClient "/" true)].
Proof.
  apply (notification_click_focuses_first_match ""
           [mkClient "https://awa.example/" true] [mkClient "/" true]
           (mkClient "/" true) true).
  - intros b [<-|[]]. left. discriminate.
  - reflexivity.
  - reflexivity.
  - discriminate.
Defined.



(** ** The storage model at the host's edges *)

(** A URL is matched without its fragment: after an install, the navigation
    to https://awa.example/#results is the page '/' for every cache, so the
    install copy hides what the navigation stored. *)
Example match_ignores_fragment :
  let origin := "https://awa.example" in
  let v1 := mkResponse 200 [] "v1" in
  let v2 := mkResponse 200 [] "v2" in
  let installed := install origin (fun _ => Resolved v1) [] in
  let request := mkRequest "GET" "https://awa.example/#results" "navigate" in
  let stored :=
    run_ops (ops_of (fetch_listener origin request (Resolved v2) installed))
            installed in
  Caches.held_before DYNAMIC_CACHE (url request) installed = Some v1
  /\ fetch_listener origin request (Rejected "offline") stored
     = RespondWith (Respond v1) []
  /\ Caches.match_any "https://awa.example/p#b"
       [(STATIC_CACHE, {[ "https://awa.example/p#a" := v1 ]})] = Some v1.
Proof. vm_compute. repeat split. Qed.

(** Two URLs that differ by the fragment only share one entry. *)
Example fragments_share_one_entry :
  let a := mkResponse 200 [] "a" in
  let b := mkResponse 200 [] "b" in
  let cs := run_ops [OpenPut DYNAMIC_CACHE "https://awa.example/p#a" a;
                     OpenPut DYNAMIC_CACHE "https://awa.example/p#b" b] [] in
  cs = [(DYNAMIC_CACHE, {[ "https://awa.example/p#b" := b ]})]
  /\ Caches.match_any "https://awa.example/p#a" cs = Some b
  /\ Caches.match_any "https://awa.example/p" cs = Some b.
Proof. vm_compute. repeat split. Qed.

(** [cache.addAll] refuses a partial response: one asset fetched with
    status 206 and the install caches nothing. *)
Example addAll_refuses_partial_response :
  let net := fun u =>
    if String.eqb u "https://awa.example/logo.png"
    then Resolved (mkResponse 206 [] "PNG")
    else Resolved (mkResponse 200 [] "ok") in
  install "https://awa.example" net [] = [(STATIC_CACHE, ∅)].
Proof. reflexivity. Qed.
